(** * float_cmp: approximate equality of IEEE-754 values

    A shallow embedding of [type_with_size.hpp] and [float_cmp.hpp].

    The class [IEEE_754<float_type>] stores one floating-point value in a
    union that overlays it with an unsigned integer of the same size.  An
    object of the class is therefore determined by its bit pattern: a
    [bitCount]-bit unsigned integer, here a [Z] in [0, 2^bitCount).  The
    member [bit_] is that integer, the member [float_] is the IEEE-754
    reading of it ([float_data] below).

    Floating-point arithmetic is the IEEE-754 binary arithmetic of the
    standard library's [SpecFloat] (round to nearest, ties to even),
    instantiated at the precision and exponent range of the format. *)

From Stdlib Require Import ZArith Lia Bool.
From Stdlib Require Import Floats.SpecFloat.

Local Open Scope Z_scope.

(** ** type_with_size.hpp *)

(** [type_with_size<size>::t_uint]: the width in bits of the unsigned integer
    type of [size] bytes.  Sizes without a specialization do not compile. *)
Definition t_uint (size : Z) : option Z :=
  match size with
  | 1 => Some 8
  | 2 => Some 16
  | 4 => Some 32
  | 8 => Some 64
  | _ => None
  end.

(** [type_with_size<size>::t_float] exists for 4 and 8 bytes only. *)
Inductive float_type : Set := Float | Double.

Definition t_float (size : Z) : option float_type :=
  match size with
  | 4 => Some Float
  | 8 => Some Double
  | _ => None
  end.

(** [sizeof(float_type)]. *)
Definition sizeof (T : float_type) : Z :=
  match T with Float => 4 | Double => 8 end.

(** [std::numeric_limits<float_type>::digits]. *)
Definition digits (T : float_type) : Z :=
  match T with Float => 24 | Double => 53 end.

(** ** float_cmp.hpp *)

(** [operator>=] on floating-point values. *)
Definition SFgeb (x y : spec_float) : bool :=
  match SFcompare x y with
  | Some (Gt | Eq) => true
  | _ => false
  end.

(** [absolute_value(v)]: [v >= T{} ? v : -v], with [T{}] the value [+0.0]. *)
Definition absolute_value (v : spec_float) : spec_float :=
  if SFgeb v (S754_zero false) then v else SFopp v.

Section IEEE_754.

Variable T : float_type.

(** *** Constants *)

Definition bitCount : Z := 8 * sizeof T.

Definition significandBitCount : Z := digits T - 1.

Definition exponentBitCount : Z := bitCount - 1 - significandBitCount.

(** Arithmetic on [bit_data] is arithmetic modulo [2^bitCount].  (Both
    [uint32_t] and [uint64_t] are at least as wide as [int], so no integer
    promotion takes place.) *)
Definition wrap (z : Z) : Z := z mod 2 ^ bitCount.

Definition signBitMask : Z := wrap (Z.shiftl (wrap 1) (bitCount - 1)).

Definition significandBitMask : Z :=
  Z.shiftr (wrap (Z.lnot (wrap 0))) (exponentBitCount + 1).

Definition exponentBitMask : Z :=
  wrap (Z.lnot (Z.lor signBitMask significandBitMask)).

(** [prec] and [emax] of the format, in the sense of [SpecFloat]. *)
Definition prec : Z := digits T.
Definition emax : Z := 2 ^ (exponentBitCount - 1).

(** [std::numeric_limits<float_type>::epsilon()], that is [2^(1 - digits)]. *)
Definition maxDiff : spec_float :=
  S754_finite false (Z.to_pos (2 ^ (digits T - 1))) (2 - 2 * digits T).

Definition maxUlpsDiff : Z := 4.

(** *** Accessors.  [this] is the bit pattern [data_.bit_]. *)

Definition exponent_bits (this : Z) : Z := Z.land exponentBitMask this.

Definition significand_bits (this : Z) : Z := Z.land significandBitMask this.

Definition sign_bit (this : Z) : Z := Z.land signBitMask this.

Definition bit_data (this : Z) : Z := this.

(** [data_.float_]: the IEEE-754 value whose representation is [this]. *)
Definition float_data (this : Z) : spec_float :=
  let s := negb (sign_bit this =? 0) in
  let e := Z.shiftr (exponent_bits this) significandBitCount in
  let m := significand_bits this in
  if e =? 0 then
    match m with
    | Zpos p => S754_finite s p (emin prec emax)
    | _ => S754_zero s
    end
  else if e =? 2 ^ exponentBitCount - 1 then
    if m =? 0 then S754_infinity s else S754_nan
  else
    match m + 2 ^ significandBitCount with
    | Zpos p => S754_finite s p (e - 1 + emin prec emax)
    | _ => S754_nan
    end.

Definition is_nan (this : Z) : bool :=
  (exponent_bits this =? exponentBitMask) && negb (significand_bits this =? 0).

Definition float_close (lhs rhs : spec_float) : bool :=
  SFleb (absolute_value (SFsub prec emax lhs rhs)) maxDiff.

Definition ulp_close (lhs rhs : Z) : bool :=
  wrap (lhs - rhs) <=? maxUlpsDiff.

Definition almost_equal (this rhs : Z) : bool :=
  if is_nan this || is_nan rhs then false
  else if float_close (float_data this) (float_data rhs) then true
  else if negb (sign_bit this =? sign_bit rhs) then false
  else ulp_close (bit_data this) (bit_data rhs).

(** [operator==(IEEE_754 const&&)] and [operator==(float_type const&&)]
    of the class, and the free [operator==(float_type, IEEE_754)], which
    swaps its operands. *)
Definition eq_member (this rhs : Z) : bool := almost_equal this rhs.

Definition eq_free (lhs rhs : Z) : bool := eq_member rhs lhs.

End IEEE_754.

(** ** Vocabulary of the statements *)

(** The bit patterns a [bit_data] of the format can hold. *)
Definition representable (T : float_type) (x : Z) : Prop :=
  0 <= x < 2 ^ bitCount T.

(** The exponent field and the significand field, as numbers. *)
Definition biased_exponent (T : float_type) (x : Z) : Z :=
  (x / 2 ^ significandBitCount T) mod 2 ^ exponentBitCount T.

Definition trailing_significand (T : float_type) (x : Z) : Z :=
  x mod 2 ^ significandBitCount T.

(** Zeros, subnormal and normal numbers: neither infinite nor NaN. *)
Definition is_finite (v : spec_float) : bool :=
  match v with
  | S754_zero _ | S754_finite _ _ _ => true
  | _ => false
  end.

(** Unary minus on the representation: the sign bit is flipped. *)
Definition negate (T : float_type) (x : Z) : Z := Z.lxor x (signBitMask T).

(** The representation of [std::numeric_limits<float_type>::infinity()],
    and of its negation. *)
Definition infinity (T : float_type) (negative : bool) : Z :=
  Z.lor (if negative then signBitMask T else 0) (exponentBitMask T).

(** The representation of [std::numeric_limits<float_type>::max()], and of
    [lowest()]: one below the infinity of the same sign. *)
Definition max_finite (T : float_type) (negative : bool) : Z :=
  infinity T negative - 1.

(** The representation of [+0.0] and of [-0.0]. *)
Definition zero (T : float_type) (negative : bool) : Z :=
  if negative then signBitMask T else 0.

(** The representation of [1.0f], of [epsilon()] and of a quiet NaN of
    [float]. *)
Definition one_f : Z := 0x3F800000.
Definition epsilon_f : Z := 0x34000000.
Definition nan_f : Z := 0x7FC00000.

(** [n] applications of [nextafter(_, +infinity)]. *)
Definition nextafter_up (T : float_type) (n : nat) (v : spec_float) : spec_float :=
  Nat.iter n (SFsucc (prec T) (emax T)) v.


(** * Properties *)

(** A closed fact about the constants of both formats, by evaluation. *)
Ltac by_format T := destruct T; repeat split; reflexivity.

(** ** The format constants *)

Lemma t_uint_bitCount (T : float_type) : t_uint (sizeof T) = Some (bitCount T).
Proof. by_format T. Qed.

Lemma t_float_sizeof (T : float_type) : t_float (sizeof T) = Some T.
Proof. by_format T. Qed.

Lemma bit_counts (T : float_type) :
  0 < significandBitCount T /\ 1 < exponentBitCount T /\
  bitCount T = 1 + exponentBitCount T + significandBitCount T.
Proof. by_format T. Qed.

Lemma format_parameters (T : float_type) :
  prec T = significandBitCount T + 1 /\
  2 ^ exponentBitCount T = 2 * emax T /\
  prec T + 1 < emax T.
Proof. by_format T. Qed.

Lemma masks_as_fields (T : float_type) :
  signBitMask T = Z.shiftl (Z.ones 1) (bitCount T - 1) /\
  exponentBitMask T =
    Z.shiftl (Z.ones (exponentBitCount T)) (significandBitCount T) /\
  significandBitMask T = Z.shiftl (Z.ones (significandBitCount T)) 0.
Proof. by_format T. Qed.

Lemma masks_cover (T : float_type) :
  Z.lor (Z.lor (signBitMask T) (exponentBitMask T)) (significandBitMask T) =
  Z.ones (bitCount T).
Proof. by_format T. Qed.

Lemma masks_disjoint (T : float_type) :
  Z.land (signBitMask T) (exponentBitMask T) = 0 /\
  Z.land (signBitMask T) (significandBitMask T) = 0 /\
  Z.land (exponentBitMask T) (significandBitMask T) = 0.
Proof. by_format T. Qed.

Lemma exponentBitMask_value (T : float_type) :
  exponentBitMask T = (2 ^ exponentBitCount T - 1) * 2 ^ significandBitCount T.
Proof. by_format T. Qed.

Lemma signBitMask_value (T : float_type) : signBitMask T = 2 ^ (bitCount T - 1).
Proof. by_format T. Qed.

Lemma signBitMask_nonzero (T : float_type) : signBitMask T <> 0.
Proof. destruct T; discriminate. Qed.

Lemma maxDiff_value (T : float_type) :
  maxDiff T = S754_finite false (Z.to_pos (2 ^ (prec T - 1))) (2 - 2 * prec T).
Proof. reflexivity. Qed.

Lemma eq_free_almost_equal (T : float_type) (lhs rhs : Z) :
  eq_free T lhs rhs = almost_equal T rhs lhs.
Proof. reflexivity. Qed.

(** ** Bit fields *)

Lemma land_shiftl_ones (n k x : Z) :
  0 <= k ->
  Z.land (Z.shiftl (Z.ones n) k) x =
  Z.shiftl (Z.land (Z.shiftr x k) (Z.ones n)) k.
Proof.
  intros Hk. apply Z.bits_inj'. intros i Hi.
  rewrite Z.land_spec, !Z.shiftl_spec by assumption.
  destruct (Z.ltb_spec i k) as [Hlt | Hge].
  - rewrite (Z.testbit_neg_r (Z.ones n)), (Z.testbit_neg_r (Z.land _ _)) by lia.
    reflexivity.
  - rewrite Z.land_spec, Z.shiftr_spec by lia.
    replace (i - k + k) with i by lia. apply andb_comm.
Qed.

Lemma field_value (n k x : Z) :
  0 <= n -> 0 <= k ->
  Z.land (Z.shiftl (Z.ones n) k) x = (x / 2 ^ k) mod 2 ^ n * 2 ^ k.
Proof.
  intros Hn Hk. rewrite land_shiftl_ones by assumption.
  rewrite Z.land_ones, Z.shiftr_div_pow2, Z.shiftl_mul_pow2 by assumption.
  reflexivity.
Qed.

Lemma land_lxor (m x y : Z) :
  Z.land m (Z.lxor x y) = Z.lxor (Z.land m x) (Z.land m y).
Proof.
  apply Z.bits_inj'. intros i Hi.
  rewrite Z.land_spec, !Z.lxor_spec, !Z.land_spec.
  destruct (Z.testbit m i), (Z.testbit x i), (Z.testbit y i); reflexivity.
Qed.

Section Fields.

Variable T : float_type.

Lemma significand_bits_value x :
  significand_bits T x = trailing_significand T x.
Proof.
  unfold significand_bits, trailing_significand.
  destruct (masks_as_fields T) as (_ & _ & ->).
  destruct (bit_counts T) as (Hm & _ & _).
  rewrite field_value by lia.
  rewrite Z.pow_0_r, Z.div_1_r. lia.
Qed.

Lemma exponent_bits_value x :
  exponent_bits T x = biased_exponent T x * 2 ^ significandBitCount T.
Proof.
  unfold exponent_bits, biased_exponent.
  destruct (masks_as_fields T) as (_ & -> & _).
  destruct (bit_counts T) as (Hm & He & _).
  apply field_value; lia.
Qed.

Lemma exponent_bits_shifted x :
  Z.shiftr (exponent_bits T x) (significandBitCount T) = biased_exponent T x.
Proof.
  destruct (bit_counts T) as (Hm & _ & _).
  rewrite exponent_bits_value, Z.shiftr_div_pow2 by lia.
  apply Z.div_mul. apply Z.pow_nonzero; lia.
Qed.

Lemma biased_exponent_range x :
  0 <= biased_exponent T x < 2 ^ exponentBitCount T.
Proof.
  apply Z.mod_pos_bound. destruct (bit_counts T) as (_ & He & _).
  apply Z.pow_pos_nonneg; lia.
Qed.

Lemma trailing_significand_range x :
  0 <= trailing_significand T x < 2 ^ significandBitCount T.
Proof.
  apply Z.mod_pos_bound. destruct (bit_counts T) as (Hm & _ & _).
  apply Z.pow_pos_nonneg; lia.
Qed.

Lemma sign_bit_value x :
  sign_bit T x = (x / 2 ^ (bitCount T - 1)) mod 2 * 2 ^ (bitCount T - 1).
Proof.
  unfold sign_bit.
  destruct (masks_as_fields T) as (-> & _ & _).
  destruct (bit_counts T) as (Hm & He & Hw).
  rewrite field_value by lia. reflexivity.
Qed.

Lemma sign_bit_cases x : sign_bit T x = 0 \/ sign_bit T x = signBitMask T.
Proof.
  rewrite sign_bit_value, signBitMask_value.
  pose proof (Z.mod_pos_bound (x / 2 ^ (bitCount T - 1)) 2 ltac:(lia)) as Hb.
  assert (Hc : (x / 2 ^ (bitCount T - 1)) mod 2 = 0 \/
               (x / 2 ^ (bitCount T - 1)) mod 2 = 1) by lia.
  destruct Hc as [-> | ->]; [left | right]; lia.
Qed.

(** On a representable pattern the sign bit tells the half of the range. *)
Lemma sign_bit_representable x :
  representable T x ->
  sign_bit T x = if x <? 2 ^ (bitCount T - 1) then 0 else 2 ^ (bitCount T - 1).
Proof.
  unfold representable. intros Hx. rewrite sign_bit_value.
  destruct (bit_counts T) as (Hm & He & Hw).
  assert (Hp : 0 < 2 ^ (bitCount T - 1)) by (apply Z.pow_pos_nonneg; lia).
  assert (H2 : 2 ^ bitCount T = 2 * 2 ^ (bitCount T - 1)).
  { replace (bitCount T) with (1 + (bitCount T - 1)) at 1 by lia.
    rewrite Z.pow_add_r by lia. reflexivity. }
  destruct (Z.ltb_spec x (2 ^ (bitCount T - 1))) as [Hlt | Hge].
  - rewrite Z.div_small by lia. reflexivity.
  - replace (x / 2 ^ (bitCount T - 1)) with 1;
      [change (1 mod 2) with 1; lia|].
    apply Z.div_unique with (r := x - 2 ^ (bitCount T - 1)); lia.
Qed.

(** [float_data] and [is_nan] in terms of the three fields. *)
Lemma float_data_fields x :
  float_data T x =
  let s := negb (sign_bit T x =? 0) in
  let e := biased_exponent T x in
  let m := trailing_significand T x in
  if e =? 0 then
    match m with
    | Zpos p => S754_finite s p (emin (prec T) (emax T))
    | _ => S754_zero s
    end
  else if e =? 2 ^ exponentBitCount T - 1 then
    if m =? 0 then S754_infinity s else S754_nan
  else
    match m + 2 ^ significandBitCount T with
    | Zpos p => S754_finite s p (e - 1 + emin (prec T) (emax T))
    | _ => S754_nan
    end.
Proof.
  unfold float_data.
  rewrite exponent_bits_shifted, significand_bits_value. reflexivity.
Qed.

Lemma is_nan_fields x :
  is_nan T x =
  (biased_exponent T x =? 2 ^ exponentBitCount T - 1) &&
  negb (trailing_significand T x =? 0).
Proof.
  unfold is_nan.
  rewrite exponent_bits_value, exponentBitMask_value, significand_bits_value.
  f_equal.
  destruct (bit_counts T) as (Hm & _ & _).
  assert (Hp : 0 < 2 ^ significandBitCount T) by (apply Z.pow_pos_nonneg; lia).
  destruct (Z.eqb_spec (biased_exponent T x) (2 ^ exponentBitCount T - 1))
    as [-> | Hne].
  - apply Z.eqb_refl.
  - apply Z.eqb_neq. intros Heq. apply Hne.
    apply Z.mul_cancel_r in Heq; lia.
Qed.

(** The [is_nan] test recognises exactly the patterns that read as NaN. *)
Lemma is_nan_float_data x :
  is_nan T x = true <-> float_data T x = S754_nan.
Proof.
  rewrite is_nan_fields, float_data_fields. cbv zeta.
  pose proof (biased_exponent_range x) as He.
  pose proof (trailing_significand_range x) as Hm.
  destruct (bit_counts T) as (Hmw & Hew & _).
  assert (Hp : 2 <= 2 ^ exponentBitCount T).
  { change 2 with (2 ^ 1) at 1. apply Z.pow_le_mono_r; lia. }
  destruct (Z.eqb_spec (biased_exponent T x) 0) as [H0 | H0].
  - rewrite H0.
    destruct (Z.eqb_spec 0 (2 ^ exponentBitCount T - 1)); [lia|].
    split; [discriminate|].
    destruct (trailing_significand T x); discriminate.
  - destruct (Z.eqb_spec (biased_exponent T x) (2 ^ exponentBitCount T - 1))
      as [H1 | H1].
    + destruct (trailing_significand T x =? 0); simpl; split; congruence.
    + simpl. split; [discriminate|].
      destruct (trailing_significand T x + 2 ^ significandBitCount T) eqn:Hs;
        try discriminate; intros _;
        assert (0 < 2 ^ significandBitCount T)
          by (apply Z.pow_pos_nonneg; lia); lia.
Qed.

(** NaN: an all-ones exponent field and a nonzero significand field, the
    sign bit being free. *)
Lemma float_data_nan_iff x :
  float_data T x = S754_nan <->
  biased_exponent T x = 2 ^ exponentBitCount T - 1 /\
  trailing_significand T x <> 0.
Proof.
  rewrite <- is_nan_float_data, is_nan_fields, andb_true_iff, negb_true_iff.
  rewrite Z.eqb_eq, Z.eqb_neq. reflexivity.
Qed.

Lemma is_nan_false_not_nan x :
  float_data T x <> S754_nan -> is_nan T x = false.
Proof.
  intros H. destruct (is_nan T x) eqn:E; [|reflexivity].
  apply is_nan_float_data in E. contradiction.
Qed.

Lemma float_data_0 : float_data T 0 = S754_zero false.
Proof. by_format T. Qed.

Lemma is_nan_0 : is_nan T 0 = false.
Proof. by_format T. Qed.

End Fields.

(** ** Negation on the representation *)

Section Negation.

Variable T : float_type.

Lemma exponent_bits_negate x : exponent_bits T (negate T x) = exponent_bits T x.
Proof.
  unfold exponent_bits, negate. rewrite land_lxor.
  destruct (masks_disjoint T) as (H & _ & _).
  rewrite (Z.land_comm (exponentBitMask T) (signBitMask T)), H.
  apply Z.lxor_0_r.
Qed.

Lemma significand_bits_negate x :
  significand_bits T (negate T x) = significand_bits T x.
Proof.
  unfold significand_bits, negate. rewrite land_lxor.
  destruct (masks_disjoint T) as (_ & H & _).
  rewrite (Z.land_comm (significandBitMask T) (signBitMask T)), H.
  apply Z.lxor_0_r.
Qed.

Lemma sign_bit_negate x :
  sign_bit T (negate T x) = Z.lxor (sign_bit T x) (signBitMask T).
Proof.
  unfold sign_bit, negate. rewrite land_lxor, Z.land_diag. reflexivity.
Qed.

Lemma sign_bit_negate_neq x : sign_bit T (negate T x) <> sign_bit T x.
Proof.
  rewrite sign_bit_negate. pose proof (signBitMask_nonzero T) as Hnz.
  destruct (sign_bit_cases T x) as [-> | ->].
  - rewrite Z.lxor_0_l. auto.
  - rewrite Z.lxor_nilpotent. auto.
Qed.

Lemma sign_bit_negate_zero x :
  (sign_bit T (negate T x) =? 0) = negb (sign_bit T x =? 0).
Proof.
  rewrite sign_bit_negate. pose proof (signBitMask_nonzero T) as Hnz.
  destruct (sign_bit_cases T x) as [-> | ->].
  - rewrite Z.lxor_0_l. simpl. apply Z.eqb_neq, Hnz.
  - rewrite Z.lxor_nilpotent. simpl. symmetry.
    apply negb_true_iff, Z.eqb_neq, Hnz.
Qed.

(** [negate] is the representation of unary minus. *)
Lemma float_data_negate x :
  float_data T (negate T x) = SFopp (float_data T x).
Proof.
  unfold float_data.
  rewrite exponent_bits_negate, significand_bits_negate, sign_bit_negate_zero.
  destruct (Z.shiftr (exponent_bits T x) (significandBitCount T) =? 0).
  - destruct (significand_bits T x); reflexivity.
  - destruct (_ =? _).
    + destruct (_ =? 0); reflexivity.
    + destruct (_ + _); reflexivity.
Qed.

End Negation.

(** ** Number of digits of a significand *)

Lemma digits2_pos_size p : digits2_pos p = Pos.size p.
Proof. induction p; simpl; congruence. Qed.

Lemma digits2_pos_bounds p :
  2 ^ (Zpos (digits2_pos p) - 1) <= Zpos p < 2 ^ Zpos (digits2_pos p).
Proof.
  rewrite digits2_pos_size.
  assert (Hgt : Zpos p < 2 ^ Zpos (Pos.size p)).
  { pose proof (Pos.size_gt p) as H. apply Pos2Z.pos_lt_pos in H.
    rewrite Pos2Z.inj_pow in H. exact H. }
  assert (Hle : 2 ^ Zpos (Pos.size p) <= 2 * Zpos p).
  { pose proof (Pos.size_le p) as H. apply Pos2Z.pos_le_pos in H.
    rewrite Pos2Z.inj_pow in H. exact H. }
  split; [|exact Hgt].
  replace (Zpos (Pos.size p)) with (Z.succ (Zpos (Pos.size p) - 1)) in Hle by lia.
  rewrite Z.pow_succ_r in Hle by lia. lia.
Qed.

Lemma digits2_pos_unique p d :
  2 ^ (d - 1) <= Zpos p < 2 ^ d -> Zpos (digits2_pos p) = d.
Proof.
  intros [Hlo Hhi]. pose proof (digits2_pos_bounds p) as [Hlo' Hhi'].
  set (d' := Zpos (digits2_pos p)) in *.
  assert (0 < d) by (destruct d; try lia; simpl in Hhi; lia).
  destruct (Z.lt_trichotomy d' d) as [Hlt | [Heq | Hgt]]; [|exact Heq|].
  - assert (2 ^ d' <= 2 ^ (d - 1)) by (apply Z.pow_le_mono_r; lia). lia.
  - assert (2 ^ d <= 2 ^ (d' - 1)) by (apply Z.pow_le_mono_r; lia). lia.
Qed.

Lemma digits2_pos_le p d :
  0 <= d -> Zpos p < 2 ^ d -> Zpos (digits2_pos p) <= d.
Proof.
  intros Hd Hhi. pose proof (digits2_pos_bounds p) as [Hlo' _].
  set (d' := Zpos (digits2_pos p)) in *.
  destruct (Z.le_gt_cases d' d) as [Hle | Hgt]; [exact Hle|].
  assert (2 ^ d <= 2 ^ (d' - 1)) by (apply Z.pow_le_mono_r; lia). lia.
Qed.

(** Every bit pattern reads as a value of the format: the significand of a
    finite value is canonical and its exponent is in range. *)
Lemma float_data_valid T x :
  valid_binary (prec T) (emax T) (float_data T x) = true.
Proof.
  rewrite float_data_fields. cbv zeta.
  pose proof (biased_exponent_range T x) as He.
  pose proof (trailing_significand_range T x) as Hm.
  destruct (bit_counts T) as (Hmw & Hew & _).
  destruct (format_parameters T) as (Hp & Hemax & Hpe).
  set (E := biased_exponent T x) in *. set (M := trailing_significand T x) in *.
  destruct (Z.eqb_spec E 0) as [H0 | H0].
  - destruct M as [| p | p] eqn:HM; try reflexivity.
    cbn [valid_binary]. unfold bounded, canonical_mantissa, fexp.
    pose proof (digits2_pos_le p (significandBitCount T)) as Hd.
    apply andb_true_intro. split.
    + apply Z.eqb_eq. unfold emin in *. lia.
    + apply Z.leb_le. unfold emin. lia.
  - destruct (Z.eqb_spec E (2 ^ exponentBitCount T - 1)) as [H1 | H1].
    + destruct (M =? 0); reflexivity.
    + destruct (M + 2 ^ significandBitCount T) as [| p | p] eqn:HM;
        try reflexivity.
      cbn [valid_binary]. unfold bounded, canonical_mantissa, fexp.
      assert (Hd : Zpos (digits2_pos p) = prec T).
      { apply digits2_pos_unique. rewrite <- HM, Hp.
        replace (significandBitCount T + 1 - 1) with (significandBitCount T)
          by lia.
        rewrite Z.pow_add_r, Z.pow_1_r by lia. lia. }
      apply andb_true_intro. split.
      * apply Z.eqb_eq. unfold emin. lia.
      * apply Z.leb_le. unfold emin. lia.
Qed.

(** ** Subtraction *)

Lemma SFsub_diag_finite p e s m ex :
  SFsub p e (S754_finite s m ex) (S754_finite s m ex) = S754_zero false.
Proof.
  unfold SFsub. rewrite Z.min_id. unfold shl_align.
  rewrite (Z.sub_diag ex). cbv iota beta. cbn [fst].
  rewrite Z.sub_diag. reflexivity.
Qed.

Lemma SFsub_zero_r p e v :
  v <> S754_nan -> SFsub p e v (S754_zero false) = v.
Proof.
  destruct v as [[|] | [|] | | [|] m ex]; intros H;
    try reflexivity; contradiction.
Qed.

(** Subtracting the opposite of a normal number doubles it: the significand
    is kept and the exponent incremented, or the result overflows. *)
Lemma SFsub_opp_normal p emx s m e :
  Zpos (digits2_pos m) = p -> emin p emx <= e + 1 ->
  SFsub p emx (S754_finite s m e) (S754_finite (negb s) m e) =
  if e + 1 <=? emx - p then S754_finite s m (e + 1) else S754_infinity s.
Proof.
  intros Hd He.
  assert (Hf : fexp p emx (Zpos (Pos.succ (digits2_pos m)) + e) = e + 1).
  { unfold fexp. rewrite Pos2Z.inj_succ, Hd. lia. }
  assert (Hf' : fexp p emx (Zpos (digits2_pos m) + (e + 1)) = e + 1).
  { unfold fexp. rewrite Hd. lia. }
  assert (Hr : binary_round p emx s m~0 e =
               if e + 1 <=? emx - p
               then S754_finite s m (e + 1) else S754_infinity s).
  { unfold binary_round. cbn [digits2_pos]. rewrite Hf.
    unfold shl_align. replace (e + 1 - e) with 1 by lia. cbv iota beta.
    unfold binary_round_aux, shr_fexp. cbn [Zdigits2 digits2_pos]. rewrite Hf.
    replace (e + 1 - e) with 1 by lia.
    cbn [shr_record_of_loc shr iter_pos shr_1 orb shr_m loc_of_shr_record
         round_nearest_even Zdigits2].
    rewrite Hf', Z.sub_diag.
    cbn [shr_record_of_loc shr shr_m]. reflexivity. }
  unfold SFsub. rewrite Z.min_id. unfold shl_align.
  rewrite (Z.sub_diag e). cbv iota beta. cbn [fst].
  destruct s; cbn [negb cond_Zopp Z.opp Z.sub Z.add binary_normalize];
    rewrite Pos.add_diag; exact Hr.
Qed.

(** ** The absolute-closeness check *)

Lemma SFleb_absolute_value v y :
  SFleb (absolute_value v) y = SFleb (SFabs v) y.
Proof. destruct v as [[|] | [|] | | [|] m e]; reflexivity. Qed.

Lemma float_close_abs T a b :
  float_close T a b = SFleb (SFabs (SFsub (prec T) (emax T) a b)) (maxDiff T).
Proof. unfold float_close. apply SFleb_absolute_value. Qed.

Lemma float_close_refl T v : is_finite v = true -> float_close T v v = true.
Proof.
  unfold float_close.
  destruct v as [s | s | | s m e]; try discriminate; intros _.
  - destruct s; reflexivity.
  - rewrite SFsub_diag_finite. reflexivity.
Qed.

Lemma float_close_negate T v :
  valid_binary (prec T) (emax T) v = true ->
  SFltb (maxDiff T) (SFabs v) = true ->
  float_close T v (SFopp v) = false.
Proof.
  intros Hv Hlt. rewrite float_close_abs.
  destruct v as [s | s | | s m e]; try discriminate.
  - destruct s; reflexivity.
  - cbn [valid_binary] in Hv. unfold bounded, canonical_mantissa, fexp in Hv.
    apply andb_prop in Hv. destruct Hv as [Hc Hb].
    apply Z.eqb_eq in Hc. apply Z.leb_le in Hb.
    destruct (format_parameters T) as (Hp & Hemax & Hpe).
    destruct (bit_counts T) as (Hmw & Hew & _).
    assert (He : 2 - 2 * prec T <= e).
    { rewrite maxDiff_value in Hlt. unfold SFltb in Hlt.
      cbn [SFabs SFcompare] in Hlt.
      destruct (Z.compare_spec (2 - 2 * prec T) e);
        first [lia | discriminate]. }
    unfold emin in Hc.
    cbn [SFopp]. rewrite SFsub_opp_normal by (unfold emin; lia).
    rewrite maxDiff_value. unfold SFleb.
    destruct (e + 1 <=? emax T - prec T); [|reflexivity].
    cbn [SFabs SFcompare].
    destruct (Z.compare_spec (e + 1) (2 - 2 * prec T));
      first [lia | reflexivity].
Qed.

(** ** The ULP check *)

Lemma wrap_0 T : wrap T 0 = 0.
Proof. unfold wrap. apply Z.mod_0_l. destruct T; discriminate. Qed.

Lemma wrap_small T z : representable T z -> wrap T z = z.
Proof. unfold wrap, representable. intros H. apply Z.mod_small, H. Qed.

Lemma wrap_underflow T a b :
  representable T a -> representable T b -> a < b ->
  wrap T (a - b) = 2 ^ bitCount T - (b - a).
Proof.
  unfold wrap, representable. intros Ha Hb Hlt.
  symmetry. apply Z.mod_unique with (q := -1); lia.
Qed.

Lemma ulp_close_refl T x : ulp_close T x x = true.
Proof. unfold ulp_close. rewrite Z.sub_diag, wrap_0. reflexivity. Qed.

Lemma ulp_close_small T d :
  0 <= d <= maxUlpsDiff -> forall a b, a - b = d -> ulp_close T a b = true.
Proof.
  intros Hd a b E. unfold ulp_close. rewrite E, wrap_small.
  - apply Z.leb_le, Hd.
  - unfold representable, maxUlpsDiff in *.
    assert (4 < 2 ^ bitCount T) by (destruct T; reflexivity). lia.
Qed.

(** A non-NaN value whose absolute check fails is compared by sign and ULPs. *)
Lemma almost_equal_ulp T a b :
  is_nan T a = false -> is_nan T b = false ->
  float_close T (float_data T a) (float_data T b) = false ->
  almost_equal T a b = (sign_bit T a =? sign_bit T b) && ulp_close T a b.
Proof.
  intros Ha Hb Hc. unfold almost_equal, bit_data. rewrite Ha, Hb, Hc.
  destruct (sign_bit T a =? sign_bit T b); reflexivity.
Qed.

(** A non-NaN value is almost equal to itself, by either check. *)
Lemma almost_equal_same T x :
  float_data T x <> S754_nan -> almost_equal T x x = true.
Proof.
  intros Hnn. unfold almost_equal, bit_data.
  rewrite (is_nan_false_not_nan T x Hnn), Z.eqb_refl, ulp_close_refl.
  destruct (float_close _ _ _); reflexivity.
Qed.

(** ** Reference values *)

Lemma float_data_one_f : float_data Float one_f = SFone (prec Float) (emax Float).
Proof. reflexivity. Qed.

Lemma float_data_epsilon_f : float_data Float epsilon_f = maxDiff Float.
Proof. reflexivity. Qed.

Lemma float_data_nan_f : float_data Float nan_f = S754_nan.
Proof. reflexivity. Qed.

(** Adding [n] to the representation of [1.0f] is [n] steps of [nextafter]
    towards [+infinity]. *)
Lemma float_data_one_f_plus_4 :
  float_data Float (one_f + 4) = nextafter_up Float 4 (float_data Float one_f).
Proof. reflexivity. Qed.

Lemma float_data_one_f_plus_6 :
  float_data Float (one_f + 6) = nextafter_up Float 6 (float_data Float one_f).
Proof. reflexivity. Qed.

Lemma float_data_infinity T s : float_data T (infinity T s) = S754_infinity s.
Proof. destruct T, s; reflexivity. Qed.

Lemma float_data_max_finite T s :
  float_data T (max_finite T s) =
  if s then SFopp (SFmax_float (prec T) (emax T))
  else SFmax_float (prec T) (emax T).
Proof. destruct T, s; reflexivity. Qed.

(** The difference of two infinities of the same sign is NaN, so that the
    absolute check does not hold between them. *)
Lemma float_close_infinity T s :
  float_close T (S754_infinity s) (S754_infinity s) = false.
Proof. destruct s; reflexivity. Qed.

(** ** The scenarios of the 32-bit width *)

Example almost_equal_one_one : almost_equal Float one_f one_f = true.
Proof. reflexivity. Qed.

Example almost_equal_zero_negative_zero :
  almost_equal Float 0 (negate Float 0) = true.
Proof. reflexivity. Qed.

Example almost_equal_one_six_ulps :
  almost_equal Float one_f (one_f + 6) = false /\
  almost_equal Float (one_f + 6) one_f = false.
Proof. split; reflexivity. Qed.

Example almost_equal_one_minus_one :
  almost_equal Float one_f (negate Float one_f) = false.
Proof. reflexivity. Qed.

(** * The properties of the specification *)

(** C1, amended.  For two values that are not NaN and have the same sign
    bit, if the bit pattern of the left operand exceeds that of the right
    operand by exactly 4 (the maximum ULP distance), [almost_equal] returns
    true.  For two values with the same sign bit whose bit patterns differ by
    5, in either order, and for which the absolute check [float_close] does
    not hold, [almost_equal] returns false.  In particular
    [almost_equal(nextafter(1.0f, +infinity) applied 4 times, 1.0f)] is
    true. *)
Theorem almost_equal_ulp_boundary T a b :
  sign_bit T a = sign_bit T b ->
  (float_data T a <> S754_nan -> float_data T b <> S754_nan ->
   a - b = maxUlpsDiff -> almost_equal T a b = true) /\
  (a - b = maxUlpsDiff + 1 \/ b - a = maxUlpsDiff + 1 ->
   float_close T (float_data T a) (float_data T b) = false ->
   almost_equal T a b = false) /\
  (float_data Float (one_f + 4) = nextafter_up Float 4 (float_data Float one_f) /\
   almost_equal Float (one_f + 4) one_f = true).
Proof.
  intros Hs. split; [|split].
  - intros Ha Hb Hd. unfold almost_equal, bit_data.
    rewrite (is_nan_false_not_nan T a Ha), (is_nan_false_not_nan T b Hb).
    rewrite Hs, Z.eqb_refl.
    rewrite (ulp_close_small T maxUlpsDiff)
      by (assumption || (unfold maxUlpsDiff; lia)).
    destruct (float_close _ _ _); reflexivity.
  - intros Hd Hc. unfold almost_equal, bit_data. rewrite Hc, Hs, Z.eqb_refl.
    destruct (is_nan T a || is_nan T b); [reflexivity|].
    cbn [negb]. unfold ulp_close, wrap, maxUlpsDiff in *.
    assert (Hw : 9 < 2 ^ bitCount T) by (destruct T; reflexivity).
    apply Z.leb_gt. destruct Hd as [Hd | Hd].
    + rewrite Hd, Z.mod_small; lia.
    + replace (a - b) with (- (4 + 1)) by lia.
      rewrite <- (Z.mod_unique (- (4 + 1)) (2 ^ bitCount T) (-1)
                    (2 ^ bitCount T - 5)); lia.
  - split; reflexivity.
Qed.

Lemma almost_equal_ulp_boundary_witness :
  almost_equal Float (one_f + 4) one_f = true /\
  almost_equal Float (one_f + 5) one_f = false /\
  almost_equal Float one_f (one_f + 5) = false.
Proof.
  split; [|split].
  - apply (proj1 (almost_equal_ulp_boundary Float (one_f + 4) one_f eq_refl));
      [discriminate | discriminate | reflexivity].
  - apply (proj1 (proj2 (almost_equal_ulp_boundary Float (one_f + 5) one_f eq_refl)));
      [left; reflexivity | reflexivity].
  - apply (proj1 (proj2 (almost_equal_ulp_boundary Float one_f (one_f + 5) eq_refl)));
      [right; reflexivity | reflexivity].
Defined.

(** C1 as stated fails where one of the two values is a NaN: the bit
    patterns [0x7F800004] (a NaN) and [0x7F800000] (+infinity) of [float]
    have the same sign bit and differ by exactly 4, and [almost_equal]
    returns false for them, by its NaN guard. *)
Lemma almost_equal_ulp_boundary_nan :
  representable Float 0x7F800004 /\ representable Float 0x7F800000 /\
  sign_bit Float 0x7F800004 = sign_bit Float 0x7F800000 /\
  0x7F800004 - 0x7F800000 = maxUlpsDiff /\
  almost_equal Float 0x7F800004 0x7F800000 = false.
Proof. unfold representable. repeat split; (reflexivity || discriminate). Qed.

(** C2.  The code is not symmetric: [1.0f] and the fourth [float] above it
    are finite, [almost_equal] holds with the larger one on the left and
    fails with the operands swapped, where the unsigned difference of the bit
    patterns wraps around. *)
Theorem almost_equal_not_symmetric :
  is_finite (float_data Float one_f) = true /\
  is_finite (float_data Float (one_f + 4)) = true /\
  almost_equal Float (one_f + 4) one_f = true /\
  almost_equal Float one_f (one_f + 4) = false /\
  wrap Float (one_f - (one_f + 4)) = 0xFFFFFFFC.
Proof. repeat split. Qed.

(** C3.  For every bit pattern [x] that reads as NaN and every [y],
    [almost_equal(x, y)] and [almost_equal(y, x)] are false, and so is
    [almost_equal(x, x)].  The patterns that read as NaN are those with an
    all-ones exponent field and a nonzero significand field, under either
    sign bit ([float_data_nan_iff]), and they are the patterns [is_nan]
    accepts ([is_nan_float_data]). *)
Theorem almost_equal_nan T x y :
  float_data T x = S754_nan ->
  almost_equal T x y = false /\ almost_equal T y x = false /\
  almost_equal T x x = false.
Proof.
  intros Hx. apply is_nan_float_data in Hx.
  unfold almost_equal. rewrite Hx, orb_true_r. repeat split.
Qed.

Lemma almost_equal_nan_witness :
  almost_equal Float nan_f one_f = false /\
  almost_equal Float one_f nan_f = false /\
  almost_equal Float nan_f nan_f = false.
Proof. exact (almost_equal_nan Float nan_f one_f eq_refl). Defined.

(** C4.  For every finite value [x] (a zero, a subnormal or a normal number)
    of either width, [almost_equal(x, x)] is true; the absolute check already
    holds, the difference being zero. *)
Theorem almost_equal_refl T x :
  is_finite (float_data T x) = true ->
  float_close T (float_data T x) (float_data T x) = true /\
  almost_equal T x x = true.
Proof.
  intros Hfin. split.
  - apply float_close_refl, Hfin.
  - apply almost_equal_same. intros E. rewrite E in Hfin. discriminate.
Qed.

Lemma almost_equal_refl_witness :
  float_close Float (float_data Float one_f) (float_data Float one_f) = true /\
  almost_equal Float one_f one_f = true.
Proof. exact (almost_equal_refl Float one_f eq_refl). Defined.

(** C5.  [float_close(a, b)] is true exactly when [|a - b| <= epsilon], and
    for every [x] with [|x| <= epsilon], [almost_equal(x, 0.0)] is true. *)
Theorem almost_equal_zero T x :
  (forall a b,
      float_close T a b = true <->
      SFleb (SFabs (SFsub (prec T) (emax T) a b)) (maxDiff T) = true) /\
  (SFleb (SFabs (float_data T x)) (maxDiff T) = true ->
   almost_equal T x 0 = true).
Proof.
  split.
  - intros a b. rewrite float_close_abs. reflexivity.
  - intros Hle.
    assert (Hnn : float_data T x <> S754_nan).
    { intros E. rewrite E in Hle. discriminate. }
    unfold almost_equal.
    rewrite (is_nan_false_not_nan T x Hnn), is_nan_0, float_data_0.
    rewrite float_close_abs, SFsub_zero_r, Hle by assumption. reflexivity.
Qed.

Lemma almost_equal_zero_witness : almost_equal Float epsilon_f 0 = true.
Proof. exact (proj2 (almost_equal_zero Float epsilon_f) eq_refl). Defined.

(** C6.  For both widths the union of the sign, exponent and significand
    masks is all-ones, the masks are pairwise disjoint, and so every bit of
    the representation belongs to exactly one of the three fields. *)
Theorem masks_partition T :
  Z.lor (Z.lor (signBitMask T) (exponentBitMask T)) (significandBitMask T) =
    Z.ones (bitCount T) /\
  Z.land (signBitMask T) (exponentBitMask T) = 0 /\
  Z.land (signBitMask T) (significandBitMask T) = 0 /\
  Z.land (exponentBitMask T) (significandBitMask T) = 0 /\
  forall i, 0 <= i < bitCount T ->
    Z.b2z (Z.testbit (signBitMask T) i) +
    Z.b2z (Z.testbit (exponentBitMask T) i) +
    Z.b2z (Z.testbit (significandBitMask T) i) = 1.
Proof.
  pose proof (masks_cover T) as Hc.
  destruct (masks_disjoint T) as (Hse & Hsm & Hem).
  repeat split; try assumption.
  intros i Hi.
  assert (Hci := f_equal (fun z => Z.testbit z i) Hc).
  assert (Hsei := f_equal (fun z => Z.testbit z i) Hse).
  assert (Hsmi := f_equal (fun z => Z.testbit z i) Hsm).
  assert (Hemi := f_equal (fun z => Z.testbit z i) Hem).
  cbv beta in Hci, Hsei, Hsmi, Hemi.
  rewrite Z.ones_spec_low, !Z.lor_spec in Hci by lia.
  rewrite Z.land_spec, Z.bits_0 in Hsei, Hsmi, Hemi.
  destruct (Z.testbit (signBitMask T) i), (Z.testbit (exponentBitMask T) i),
    (Z.testbit (significandBitMask T) i); simpl in *; congruence.
Qed.

Lemma masks_partition_witness :
  Z.b2z (Z.testbit (signBitMask Float) 23) +
  Z.b2z (Z.testbit (exponentBitMask Float) 23) +
  Z.b2z (Z.testbit (significandBitMask Float) 23) = 1.
Proof.
  apply (proj2 (proj2 (proj2 (proj2 (masks_partition Float))))).
  split; [discriminate | reflexivity].
Defined.

(** C7.  For every [x] with [|x| > epsilon] (so [x] is not zero),
    [almost_equal(x, -x)] is false. *)
Theorem almost_equal_negate T x :
  SFltb (maxDiff T) (SFabs (float_data T x)) = true ->
  almost_equal T x (negate T x) = false.
Proof.
  intros Hlt. unfold almost_equal.
  destruct (is_nan T x || is_nan T (negate T x)); [reflexivity|].
  rewrite float_data_negate, float_close_negate
    by (assumption || apply float_data_valid).
  pose proof (sign_bit_negate_neq T x) as Hs.
  destruct (Z.eqb_spec (sign_bit T x) (sign_bit T (negate T x))) as [E | E].
  - symmetry in E. contradiction.
  - reflexivity.
Qed.

Lemma almost_equal_negate_witness :
  almost_equal Float one_f (negate Float one_f) = false.
Proof. exact (almost_equal_negate Float one_f eq_refl). Defined.

(** C8.  [almost_equal(infinity, infinity)] is true for two infinities of
    the same sign, at both widths. *)
Theorem almost_equal_infinity T s :
  float_data T (infinity T s) = S754_infinity s /\
  almost_equal T (infinity T s) (infinity T s) = true.
Proof.
  split; [apply float_data_infinity|].
  apply almost_equal_same. rewrite float_data_infinity. discriminate.
Qed.

(** C9.  [almost_equal(+infinity, m)] is true for [m] the largest finite
    value, whose bit pattern is one below that of [+infinity]; likewise
    [almost_equal(-infinity, -m)], the infinity being the left operand. *)
Theorem almost_equal_infinity_max_finite T s :
  float_data T (max_finite T s) =
    (if s then SFopp (SFmax_float (prec T) (emax T))
     else SFmax_float (prec T) (emax T)) /\
  wrap T (infinity T s - max_finite T s) = 1 /\
  almost_equal T (infinity T s) (max_finite T s) = true.
Proof.
  split; [apply float_data_max_finite|].
  destruct T, s; split; reflexivity.
Qed.

(** C10.  For non-NaN [a] and [b] with the same sign bit, for which
    [float_close] does not hold and with the bit pattern of [a] strictly
    below that of [b], the unsigned difference [a_bits - b_bits] wraps to a
    value above 4 and [almost_equal(a, b)] is false. *)
Theorem almost_equal_underflow T a b :
  representable T a -> representable T b ->
  is_nan T a = false -> is_nan T b = false ->
  sign_bit T a = sign_bit T b ->
  float_close T (float_data T a) (float_data T b) = false ->
  a < b ->
  wrap T (a - b) = 2 ^ bitCount T - (b - a) /\
  maxUlpsDiff < wrap T (a - b) /\
  almost_equal T a b = false.
Proof.
  intros Ha Hb Hna Hnb Hs Hc Hlt.
  pose proof (wrap_underflow T a b Ha Hb Hlt) as Hu.
  assert (Hw : maxUlpsDiff < wrap T (a - b)).
  { rewrite Hu.
    rewrite !sign_bit_representable in Hs by assumption.
    unfold representable, maxUlpsDiff in *.
    assert (H2 : 2 ^ bitCount T = 2 * 2 ^ (bitCount T - 1) /\
                 4 < 2 ^ (bitCount T - 1)) by (by_format T).
    destruct (Z.ltb_spec a (2 ^ (bitCount T - 1))),
      (Z.ltb_spec b (2 ^ (bitCount T - 1))); lia. }
  repeat split; [exact Hu | exact Hw |].
  rewrite almost_equal_ulp by assumption.
  unfold ulp_close. apply andb_false_intro2, Z.leb_gt, Hw.
Qed.

Lemma almost_equal_underflow_witness :
  wrap Float (one_f - (one_f + 4)) = 2 ^ bitCount Float - (one_f + 4 - one_f) /\
  maxUlpsDiff < wrap Float (one_f - (one_f + 4)) /\
  almost_equal Float one_f (one_f + 4) = false.
Proof.
  apply (almost_equal_underflow Float one_f (one_f + 4));
    unfold representable; repeat split; (reflexivity || discriminate).
Defined.

(** * Further properties of the code *)

(** ** Sign of a rounded result *)

Lemma binary_round_aux_opp p e s m ex l :
  binary_round_aux p e (negb s) m ex l = SFopp (binary_round_aux p e s m ex l).
Proof.
  unfold binary_round_aux.
  destruct (shr_fexp p e m ex l) as [mrs' e'].
  destruct (shr_fexp p e _ e' loc_Exact) as [mrs'' e''].
  destruct (shr_m mrs''); try reflexivity.
  destruct (e'' <=? e - p); reflexivity.
Qed.

Lemma binary_round_opp p e s m ex :
  binary_round p e (negb s) m ex = SFopp (binary_round p e s m ex).
Proof.
  unfold binary_round. destruct (shl_align _ _ _) as [mz ez].
  apply binary_round_aux_opp.
Qed.

Lemma SFabs_opp v : SFabs (SFopp v) = SFabs v.
Proof. destruct v; reflexivity. Qed.

Lemma binary_normalize_opp p e z ez :
  SFabs (binary_normalize p e (- z) ez false) =
  SFabs (binary_normalize p e z ez false).
Proof.
  destruct z as [| m | m]; cbn [Z.opp binary_normalize]; try reflexivity.
  - rewrite (binary_round_opp p e false). apply SFabs_opp.
  - rewrite (binary_round_opp p e false). symmetry. apply SFabs_opp.
Qed.

Lemma cond_Zopp_negb s z : cond_Zopp (negb s) z = - cond_Zopp s z.
Proof. destruct s; simpl; lia. Qed.

(** The magnitude of a difference does not depend on the order of the
    operands, nor on a common change of sign. *)
Lemma SFabs_SFsub_sym p e a b :
  SFabs (SFsub p e a b) = SFabs (SFsub p e b a).
Proof.
  destruct a as [[|] | [|] | | sa ma ea], b as [[|] | [|] | | sb mb eb];
    try reflexivity.
  unfold SFsub. rewrite (Z.min_comm eb ea).
  rewrite <- binary_normalize_opp. f_equal. f_equal. lia.
Qed.

Lemma SFabs_SFsub_opp p e a b :
  SFabs (SFsub p e (SFopp a) (SFopp b)) = SFabs (SFsub p e a b).
Proof.
  destruct a as [[|] | [|] | | sa ma ea], b as [[|] | [|] | | sb mb eb];
    try reflexivity.
  cbn [SFopp]. unfold SFsub. rewrite !cond_Zopp_negb.
  rewrite <- binary_normalize_opp. f_equal. f_equal. lia.
Qed.

(** ** type_with_size *)

Lemma t_uint_other size :
  size <> 1 -> size <> 2 -> size <> 4 -> size <> 8 -> t_uint size = None.
Proof.
  intros H1 H2 H4 H8. destruct size as [| p | p]; try reflexivity.
  do 4 (try (destruct p as [p | p |]; try reflexivity)); congruence.
Qed.

Lemma t_float_other size : size <> 4 -> size <> 8 -> t_float size = None.
Proof.
  intros H4 H8. destruct size as [| p | p]; try reflexivity.
  do 4 (try (destruct p as [p | p |]; try reflexivity)); congruence.
Qed.

Ltac known_size :=
  repeat split; intros; try discriminate;
  first [ exfalso; lia
        | match goal with
          | H : _ = Some _ |- _ => inversion H; subst; reflexivity
          end ].

(** X1.  [type_with_size] gives an unsigned type for 1, 2, 4 and 8 bytes
    only and a floating-point type for 4 and 8 bytes only; the unsigned type
    has [8 * size] bits, and where the floating-point type exists the
    unsigned type of the same size exists and has its [bitCount] bits. *)
Theorem type_with_size_widths size :
  (forall w, t_uint size = Some w -> w = 8 * size) /\
  (t_uint size = None <-> size <> 1 /\ size <> 2 /\ size <> 4 /\ size <> 8) /\
  (forall T, t_float size = Some T ->
     sizeof T = size /\ t_uint size = Some (bitCount T)) /\
  (t_float size = None <-> size <> 4 /\ size <> 8).
Proof.
  destruct (Z.eq_dec size 1) as [-> | H1]; [known_size|].
  destruct (Z.eq_dec size 2) as [-> | H2]; [known_size|].
  destruct (Z.eq_dec size 4) as [-> | H4]; [known_size|].
  destruct (Z.eq_dec size 8) as [-> | H8]; [known_size|].
  rewrite (t_uint_other size), (t_float_other size) by assumption.
  repeat split; intros; try discriminate; assumption.
Qed.

Lemma type_with_size_widths_witness :
  32 = 8 * 4 /\ sizeof Float = 4 /\ t_uint 4 = Some (bitCount Float).
Proof.
  split.
  - exact (proj1 (type_with_size_widths 4) 32 eq_refl).
  - exact (proj1 (proj2 (proj2 (type_with_size_widths 4))) Float eq_refl).
Defined.

(** ** Layout *)

(** X2.  The layout computed by the constants: one sign bit on top, then
    the exponent field (8 bits for [float], 11 for [double]), then the
    significand field (23 and 52 bits); each mask is the run of ones of its
    field. *)
Theorem field_layout T :
  bitCount T = 1 + exponentBitCount T + significandBitCount T /\
  signBitMask T = 2 ^ (bitCount T - 1) /\
  exponentBitMask T =
    (2 ^ exponentBitCount T - 1) * 2 ^ significandBitCount T /\
  significandBitMask T = 2 ^ significandBitCount T - 1 /\
  (exponentBitCount T, significandBitCount T) =
    match T with Float => (8, 23) | Double => (11, 52) end.
Proof. by_format T. Qed.

Lemma representable_land_ones T x :
  representable T x -> Z.land (Z.ones (bitCount T)) x = x.
Proof.
  unfold representable. intros Hx.
  rewrite Z.land_comm, Z.land_ones by (destruct T; discriminate).
  apply Z.mod_small, Hx.
Qed.

Lemma fields_sum T x :
  sign_bit T x + exponent_bits T x + significand_bits T x =
  x mod 2 ^ bitCount T.
Proof.
  rewrite sign_bit_value, exponent_bits_value, significand_bits_value.
  unfold biased_exponent, trailing_significand.
  destruct (bit_counts T) as (Hm & He & Hw).
  set (m := significandBitCount T) in *. set (e := exponentBitCount T) in *.
  assert (Hpm : 0 < 2 ^ m) by (apply Z.pow_pos_nonneg; lia).
  assert (Hpe : 0 < 2 ^ e) by (apply Z.pow_pos_nonneg; lia).
  replace (bitCount T - 1) with (m + e) by lia.
  rewrite Hw. replace (1 + e + m) with (m + (e + 1)) by lia.
  rewrite (Z.pow_add_r 2 m (e + 1)), (Z.pow_add_r 2 e 1), Z.pow_1_r by lia.
  rewrite (Z.rem_mul_r x (2 ^ m) (2 ^ e * 2)) by lia.
  rewrite (Z.rem_mul_r (x / 2 ^ m) (2 ^ e) 2) by lia.
  rewrite Z.div_div by lia.
  rewrite (Z.pow_add_r 2 m e) by lia. ring.
Qed.

(** X3.  The three accessors split a bit pattern without loss: the bitwise
    or, and the sum, of [sign_bit], [exponent_bits] and [significand_bits]
    give the pattern back. *)
Theorem fields_recompose T x :
  representable T x ->
  Z.lor (Z.lor (sign_bit T x) (exponent_bits T x)) (significand_bits T x) = x /\
  sign_bit T x + exponent_bits T x + significand_bits T x = x.
Proof.
  intros Hx. split.
  - unfold sign_bit, exponent_bits, significand_bits.
    rewrite <- !Z.land_lor_distr_l, masks_cover.
    apply representable_land_ones, Hx.
  - rewrite fields_sum. apply Z.mod_small, Hx.
Qed.

Lemma fields_recompose_witness :
  Z.lor (Z.lor (sign_bit Float one_f) (exponent_bits Float one_f))
    (significand_bits Float one_f) = one_f /\
  sign_bit Float one_f + exponent_bits Float one_f +
    significand_bits Float one_f = one_f.
Proof.
  apply (fields_recompose Float one_f).
  unfold representable. split; [discriminate | reflexivity].
Defined.

(** X4.  Each accessor returns its field in place, not shifted down:
    [sign_bit] is 0 or the sign mask, [exponent_bits] is a multiple of
    [2^significandBitCount] within the exponent mask, and [significand_bits]
    is the pattern modulo [2^significandBitCount]. *)
Theorem accessor_values T x :
  (sign_bit T x = 0 \/ sign_bit T x = signBitMask T) /\
  (exists e, 0 <= e < 2 ^ exponentBitCount T /\
             exponent_bits T x = e * 2 ^ significandBitCount T) /\
  0 <= exponent_bits T x <= exponentBitMask T /\
  0 <= significand_bits T x <= significandBitMask T /\
  significand_bits T x = x mod 2 ^ significandBitCount T.
Proof.
  pose proof (biased_exponent_range T x) as He.
  pose proof (trailing_significand_range T x) as Hm.
  destruct (bit_counts T) as (Hmw & _ & _).
  assert (Hp : 0 < 2 ^ significandBitCount T) by (apply Z.pow_pos_nonneg; lia).
  destruct (field_layout T) as (_ & _ & HE & HM & _).
  repeat split.
  - apply sign_bit_cases.
  - exists (biased_exponent T x). split; [exact He | apply exponent_bits_value].
  - rewrite exponent_bits_value. nia.
  - rewrite exponent_bits_value, HE. nia.
  - rewrite significand_bits_value. lia.
  - rewrite significand_bits_value, HM. lia.
  - apply significand_bits_value.
Qed.

(** ** is_nan *)

(** X5.  [is_nan] holds exactly for the patterns whose IEEE-754 reading is
    NaN; it ignores the sign bit, is false for every finite value, and is
    false for the infinities and the zeros of either sign. *)
Theorem is_nan_spec T x :
  (is_nan T x = true <-> float_data T x = S754_nan) /\
  is_nan T (negate T x) = is_nan T x /\
  (is_finite (float_data T x) = true -> is_nan T x = false) /\
  forall s, is_nan T (infinity T s) = false /\ is_nan T (zero T s) = false.
Proof.
  repeat split.
  - apply is_nan_float_data.
  - apply is_nan_float_data.
  - unfold is_nan. rewrite exponent_bits_negate, significand_bits_negate.
    reflexivity.
  - intros Hf. apply is_nan_false_not_nan. intros E. rewrite E in Hf.
    discriminate.
  - destruct T, s; reflexivity.
  - destruct T, s; reflexivity.
Qed.

Lemma is_nan_spec_witness : is_nan Float one_f = false.
Proof.
  exact (proj1 (proj2 (proj2 (is_nan_spec Float one_f))) eq_refl).
Defined.

(** ** absolute_value *)



(** ** float_close *)

(** X7.  The absolute check does not depend on the order of its
    operands. *)
Theorem float_close_sym T a b : float_close T a b = float_close T b a.
Proof. rewrite !float_close_abs, SFabs_SFsub_sym. reflexivity. Qed.

Lemma float_close_opp T a b :
  float_close T (SFopp a) (SFopp b) = float_close T a b.
Proof. rewrite !float_close_abs, SFabs_SFsub_opp. reflexivity. Qed.

Lemma SFsub_not_finite p e a b :
  is_finite a = false \/ is_finite b = false ->
  is_finite (SFsub p e a b) = false.
Proof.
  destruct a as [[|] | [|] | | sa ma ea], b as [[|] | [|] | | sb mb eb];
    intros [H | H]; try discriminate; reflexivity.
Qed.

Lemma SFleb_abs_not_finite T v :
  is_finite v = false -> SFleb (SFabs v) (maxDiff T) = false.
Proof. destruct v as [s | s | | s m e]; try discriminate; reflexivity. Qed.

(** X8.  The absolute check fails whenever an operand is an infinity or a
    NaN; in particular a value is [float_close] to itself exactly when it is
    finite. *)
Theorem float_close_not_finite T a b :
  (is_finite a = false \/ is_finite b = false -> float_close T a b = false) /\
  float_close T a a = is_finite a.
Proof.
  split.
  - intros H. rewrite float_close_abs.
    apply SFleb_abs_not_finite, SFsub_not_finite, H.
  - destruct (is_finite a) eqn:Hf.
    + apply float_close_refl, Hf.
    + rewrite float_close_abs.
      apply SFleb_abs_not_finite, SFsub_not_finite. left. exact Hf.
Qed.

Lemma float_close_not_finite_witness :
  float_close Float (float_data Float (infinity Float false))
    (float_data Float one_f) = false.
Proof.
  apply (proj1 (float_close_not_finite Float _ _)). left. reflexivity.
Defined.

(** ** ulp_close *)

Lemma wrap_nonneg_diff T a b :
  representable T a -> representable T b -> b <= a -> wrap T (a - b) = a - b.
Proof.
  unfold representable. intros Ha Hb Hle. apply wrap_small.
  unfold representable. lia.
Qed.

Lemma same_sign_half T a b :
  representable T a -> representable T b ->
  sign_bit T a = sign_bit T b ->
  Z.abs (a - b) < 2 ^ (bitCount T - 1).
Proof.
  intros Ha Hb Hs. rewrite !sign_bit_representable in Hs by assumption.
  unfold representable in *.
  assert (H2 : 2 ^ bitCount T = 2 * 2 ^ (bitCount T - 1)) by (by_format T).
  destruct (Z.ltb_spec a (2 ^ (bitCount T - 1))),
    (Z.ltb_spec b (2 ^ (bitCount T - 1))); lia.
Qed.

(** X9.  On representable patterns [ulp_close(a, b)] holds exactly when
    [a] is at most 4 above [b], or [b] is within 4 of wrapping around above
    [a]; when the sign bits agree only the first case remains. *)
Theorem ulp_close_iff T a b :
  representable T a -> representable T b ->
  (ulp_close T a b = true <->
   0 <= a - b <= maxUlpsDiff \/ 2 ^ bitCount T - maxUlpsDiff <= b - a) /\
  (sign_bit T a = sign_bit T b ->
   (ulp_close T a b = true <-> 0 <= a - b <= maxUlpsDiff)).
Proof.
  intros Ha Hb.
  assert (Hg : ulp_close T a b = true <->
               0 <= a - b <= maxUlpsDiff \/
               2 ^ bitCount T - maxUlpsDiff <= b - a).
  { unfold ulp_close. rewrite Z.leb_le.
    destruct (Z.le_gt_cases b a) as [Hle | Hgt].
    - rewrite wrap_nonneg_diff by assumption. unfold maxUlpsDiff.
      unfold representable in *. lia.
    - rewrite wrap_underflow by (assumption || lia). unfold maxUlpsDiff.
      unfold representable in *. lia. }
  split; [exact Hg|].
  intros Hs. rewrite Hg.
  pose proof (same_sign_half T a b Ha Hb Hs) as Hh.
  assert (H2 : 2 ^ bitCount T = 2 * 2 ^ (bitCount T - 1) /\
               4 < 2 ^ (bitCount T - 1)) by (by_format T).
  unfold maxUlpsDiff. lia.
Qed.

Lemma ulp_close_iff_witness :
  (ulp_close Float 0 0xFFFFFFFF = true <->
   0 <= 0 - 0xFFFFFFFF <= maxUlpsDiff \/
   2 ^ bitCount Float - maxUlpsDiff <= 0xFFFFFFFF - 0) /\
  (sign_bit Float 0 = sign_bit Float 0xFFFFFFFF ->
   (ulp_close Float 0 0xFFFFFFFF = true <->
    0 <= 0 - 0xFFFFFFFF <= maxUlpsDiff)).
Proof.
  apply (ulp_close_iff Float 0 0xFFFFFFFF);
    unfold representable; split; (discriminate || reflexivity).
Defined.

(** ** almost_equal *)

(** X10.  [almost_equal(a, b)] holds exactly when neither operand is NaN
    and either the absolute check holds, or the sign bits agree and the bit
    pattern of [a] is at most 4 above that of [b]. *)
Theorem almost_equal_iff T a b :
  representable T a -> representable T b ->
  (almost_equal T a b = true <->
   is_nan T a = false /\ is_nan T b = false /\
   (float_close T (float_data T a) (float_data T b) = true \/
    (sign_bit T a = sign_bit T b /\ 0 <= a - b <= maxUlpsDiff))).
Proof.
  intros Ha Hb. unfold almost_equal, bit_data.
  destruct (is_nan T a); [simpl; split; [discriminate | intros (H & _); discriminate]|].
  destruct (is_nan T b); [simpl; split; [discriminate | intros (_ & H & _); discriminate]|].
  simpl.
  destruct (float_close T (float_data T a) (float_data T b)).
  { split; auto. }
  destruct (Z.eqb_spec (sign_bit T a) (sign_bit T b)) as [Hs | Hs]; simpl.
  - rewrite (proj2 (ulp_close_iff T a b Ha Hb) Hs).
    split.
    + intros H. repeat split; auto.
    + intros (_ & _ & [H | [_ H]]); [discriminate | exact H].
  - split; [discriminate|].
    intros (_ & _ & [H | [H _]]); [discriminate | contradiction].
Qed.

Lemma almost_equal_iff_witness :
  almost_equal Float (one_f + 4) one_f = true <->
  is_nan Float (one_f + 4) = false /\ is_nan Float one_f = false /\
  (float_close Float (float_data Float (one_f + 4)) (float_data Float one_f)
     = true \/
   (sign_bit Float (one_f + 4) = sign_bit Float one_f /\
    0 <= one_f + 4 - one_f <= maxUlpsDiff)).
Proof.
  apply (almost_equal_iff Float (one_f + 4) one_f);
    unfold representable; split; (discriminate || reflexivity).
Defined.

(** X11.  [almost_equal(a, b)] holds while [almost_equal(b, a)] fails
    exactly when neither is NaN, the absolute check fails, the sign bits
    agree and the pattern of [a] is between 1 and 4 above that of [b]. *)
Theorem almost_equal_asymmetry T a b :
  representable T a -> representable T b ->
  (almost_equal T a b = true /\ almost_equal T b a = false <->
   is_nan T a = false /\ is_nan T b = false /\
   float_close T (float_data T a) (float_data T b) = false /\
   sign_bit T a = sign_bit T b /\ 1 <= a - b <= maxUlpsDiff).
Proof.
  intros Ha Hb.
  pose proof (almost_equal_iff T a b Ha Hb) as Hab.
  pose proof (almost_equal_iff T b a Hb Ha) as Hba.
  rewrite (float_close_sym T (float_data T b) (float_data T a)) in Hba.
  unfold maxUlpsDiff in *. split.
  - intros [Eab Eba].
    apply Hab in Eab. destruct Eab as (Hna & Hnb & Hd).
    assert (Hc : float_close T (float_data T a) (float_data T b) = false).
    { destruct (float_close T (float_data T a) (float_data T b));
        [|reflexivity].
      rewrite (proj2 Hba) in Eba; [discriminate | auto]. }
    destruct Hd as [Hd | [Hs Hd]]; [congruence|].
    repeat split; try assumption; try lia.
    destruct (Z.eq_dec a b) as [E | E]; [|lia].
    rewrite (proj2 Hba) in Eba; [discriminate|].
    repeat split; try assumption. right. split; [congruence | lia].
  - intros (Hna & Hnb & Hc & Hs & Hd). split.
    + apply Hab. repeat split; try assumption. right. split; [assumption | lia].
    + destruct (almost_equal T b a); [|reflexivity].
      destruct (proj1 Hba eq_refl) as (_ & _ & [H | [_ H]]);
        [congruence | lia].
Qed.

Lemma almost_equal_asymmetry_witness :
  almost_equal Float (one_f + 4) one_f = true /\
  almost_equal Float one_f (one_f + 4) = false <->
  is_nan Float (one_f + 4) = false /\ is_nan Float one_f = false /\
  float_close Float (float_data Float (one_f + 4)) (float_data Float one_f)
    = false /\
  sign_bit Float (one_f + 4) = sign_bit Float one_f /\
  1 <= one_f + 4 - one_f <= maxUlpsDiff.
Proof.
  apply (almost_equal_asymmetry Float (one_f + 4) one_f);
    unfold representable; split; (discriminate || reflexivity).
Defined.

(** ** Negating both operands *)

Lemma representable_signBitMask T : representable T (signBitMask T).
Proof. unfold representable. destruct T; split; (discriminate || reflexivity). Qed.

Lemma negate_mod T x :
  representable T x -> (negate T x) mod 2 ^ bitCount T = negate T x.
Proof.
  intros Hx. rewrite <- Z.land_ones by (destruct T; discriminate).
  rewrite Z.land_comm. unfold negate. rewrite land_lxor.
  rewrite (representable_land_ones T x Hx).
  rewrite (representable_land_ones T _ (representable_signBitMask T)).
  reflexivity.
Qed.

Lemma negate_representable T x :
  representable T x -> representable T (negate T x).
Proof.
  intros Hx. unfold representable. rewrite <- (negate_mod T x Hx).
  apply Z.mod_pos_bound. apply Z.pow_pos_nonneg; [lia | destruct T; discriminate].
Qed.

Lemma negate_value T x :
  representable T x ->
  negate T x = x + signBitMask T - 2 * sign_bit T x.
Proof.
  intros Hx.
  pose proof (fields_sum T (negate T x)) as Hn.
  rewrite (negate_mod T x Hx) in Hn.
  rewrite exponent_bits_negate, significand_bits_negate, sign_bit_negate in Hn.
  pose proof (fields_sum T x) as Hs.
  rewrite Z.mod_small in Hs by exact Hx.
  destruct (sign_bit_cases T x) as [E | E]; rewrite E in *.
  - rewrite Z.lxor_0_l in Hn. lia.
  - rewrite Z.lxor_nilpotent in Hn. lia.
Qed.

Lemma is_nan_negate T x : is_nan T (negate T x) = is_nan T x.
Proof.
  unfold is_nan. rewrite exponent_bits_negate, significand_bits_negate.
  reflexivity.
Qed.

Lemma sign_bit_negate_eqb T a b :
  (sign_bit T (negate T a) =? sign_bit T (negate T b)) =
  (sign_bit T a =? sign_bit T b).
Proof.
  rewrite !sign_bit_negate. pose proof (signBitMask_nonzero T) as Hnz.
  destruct (sign_bit_cases T a) as [-> | ->],
    (sign_bit_cases T b) as [-> | ->];
    rewrite ?Z.lxor_0_l, ?Z.lxor_nilpotent, ?Z.eqb_refl;
    reflexivity || apply Z.eqb_sym.
Qed.

(** X12.  Negating both operands does not change the result. *)
Theorem almost_equal_negate_both T a b :
  representable T a -> representable T b ->
  almost_equal T (negate T a) (negate T b) = almost_equal T a b.
Proof.
  intros Ha Hb. unfold almost_equal, bit_data.
  rewrite !is_nan_negate, !float_data_negate, float_close_opp,
    sign_bit_negate_eqb.
  destruct (is_nan T a || is_nan T b); [reflexivity|].
  destruct (float_close T (float_data T a) (float_data T b)); [reflexivity|].
  destruct (Z.eqb_spec (sign_bit T a) (sign_bit T b)) as [Hs | Hs];
    [|reflexivity].
  cbn [negb]. unfold ulp_close. f_equal. f_equal.
  rewrite (negate_value T a Ha), (negate_value T b Hb), Hs. lia.
Qed.

Lemma almost_equal_negate_both_witness :
  almost_equal Float (negate Float one_f) (negate Float (one_f + 4)) =
  almost_equal Float one_f (one_f + 4).
Proof.
  apply (almost_equal_negate_both Float one_f (one_f + 4));
    unfold representable; split; (discriminate || reflexivity).
Defined.

(** ** Equal operands *)

(** X13.  A value is almost equal to itself exactly when it is not NaN. *)
Theorem almost_equal_diag T x : almost_equal T x x = negb (is_nan T x).
Proof.
  unfold almost_equal, bit_data. rewrite orb_diag, Z.eqb_refl, ulp_close_refl.
  destruct (is_nan T x); [reflexivity|].
  destruct (float_close _ _ _); reflexivity.
Qed.

(** ** Infinite operands *)

Ltac upto_four k :=
  let H := fresh in
  assert (H : k = 0 \/ k = 1 \/ k = 2 \/ k = 3 \/ k = 4) by lia;
  destruct H as [-> | [-> | [-> | [-> | ->]]]].

Lemma representable_infinity T s : representable T (infinity T s).
Proof.
  unfold representable. destruct T, s; split; (discriminate || reflexivity).
Qed.

Lemma below_infinity T s k :
  0 <= k <= 4 ->
  is_nan T (infinity T s - k) = false /\
  sign_bit T (infinity T s - k) = sign_bit T (infinity T s).
Proof. intros Hk. upto_four k; destruct T, s; split; reflexivity. Qed.

Lemma above_infinity T s k :
  1 <= k <= 4 -> is_nan T (infinity T s + k) = true.
Proof. intros Hk. upto_four k; try lia; destruct T, s; reflexivity. Qed.

Lemma float_close_infinity_l T s v :
  float_close T (S754_infinity s) v = false.
Proof. apply (proj1 (float_close_not_finite T _ _)). left. reflexivity. Qed.

(** X14.  With an infinity as the left operand, [almost_equal] holds
    exactly for the right operands whose pattern is the infinity's or one of
    the four below it: the infinity itself and the four largest finite
    values of its sign. *)
Theorem almost_equal_infinity_left T s y :
  representable T y ->
  (almost_equal T (infinity T s) y = true <->
   infinity T s - maxUlpsDiff <= y <= infinity T s).
Proof.
  intros Hy.
  rewrite (almost_equal_iff T _ y (representable_infinity T s) Hy).
  rewrite float_data_infinity, float_close_infinity_l.
  unfold maxUlpsDiff. split.
  - intros (_ & _ & [H | [_ H]]); [discriminate | lia].
  - intros H.
    destruct (below_infinity T s (infinity T s - y) ltac:(lia)) as [Hn Hs].
    replace (infinity T s - (infinity T s - y)) with y in Hn, Hs by lia.
    repeat split.
    + destruct T, s; reflexivity.
    + exact Hn.
    + right. split; [congruence | lia].
Qed.

Lemma almost_equal_infinity_left_witness :
  almost_equal Float (infinity Float false) (max_finite Float false - 3) = true
  <->
  infinity Float false - maxUlpsDiff <= max_finite Float false - 3
    <= infinity Float false.
Proof.
  apply (almost_equal_infinity_left Float false (max_finite Float false - 3)).
  unfold representable. split; (discriminate || reflexivity).
Defined.

(** X15.  With an infinity as the right operand, [almost_equal] holds only
    for that same infinity on the left. *)
Theorem almost_equal_infinity_right T s y :
  representable T y ->
  (almost_equal T y (infinity T s) = true <-> y = infinity T s).
Proof.
  intros Hy. split.
  - intros H.
    apply (almost_equal_iff T y _ Hy (representable_infinity T s)) in H.
    destruct H as (Hn & _ & H).
    rewrite float_data_infinity, float_close_sym, float_close_infinity_l in H.
    destruct H as [H | [_ H]]; [discriminate|].
    unfold maxUlpsDiff in H.
    destruct (Z.eq_dec y (infinity T s)) as [E | E]; [exact E|].
    pose proof (above_infinity T s (y - infinity T s) ltac:(lia)) as Ha.
    replace (infinity T s + (y - infinity T s)) with y in Ha by lia.
    congruence.
  - intros ->. rewrite almost_equal_diag. destruct T, s; reflexivity.
Qed.

Lemma almost_equal_infinity_right_witness :
  almost_equal Float (max_finite Float false) (infinity Float false) = true <->
  max_finite Float false = infinity Float false.
Proof.
  apply (almost_equal_infinity_right Float false (max_finite Float false)).
  unfold representable. split; (discriminate || reflexivity).
Defined.

(** ** Comparison with zero *)

Lemma float_data_zero T s : float_data T (zero T s) = S754_zero s.
Proof. destruct T, s; reflexivity. Qed.

Lemma representable_zero T s : representable T (zero T s).
Proof.
  unfold representable. destruct T, s; split; (discriminate || reflexivity).
Qed.

Lemma SFabs_SFsub_zero_r p e v s :
  v <> S754_nan -> SFabs (SFsub p e v (S754_zero s)) = SFabs v.
Proof.
  destruct v as [[|] | [|] | | [|] m ex], s; intros H;
    try reflexivity; contradiction.
Qed.

Lemma above_zero T s k :
  0 <= k <= 4 ->
  SFleb (SFabs (float_data T (zero T s + k))) (maxDiff T) = true.
Proof. intros Hk. upto_four k; destruct T, s; reflexivity. Qed.

Lemma below_zero T s k :
  1 <= k <= 4 -> representable T (zero T s - k) ->
  sign_bit T (zero T s - k) <> sign_bit T (zero T s).
Proof.
  intros Hk Hr. upto_four k; try lia; destruct T, s;
    try discriminate; unfold representable in Hr; simpl in Hr; lia.
Qed.

(** X16.  Against a zero of either sign, in either operand order,
    [almost_equal] holds exactly when [|x| <= epsilon]. *)
Theorem almost_equal_zero_iff T s x :
  representable T x ->
  almost_equal T x (zero T s) = SFleb (SFabs (float_data T x)) (maxDiff T) /\
  almost_equal T (zero T s) x = SFleb (SFabs (float_data T x)) (maxDiff T).
Proof.
  intros Hx.
  pose proof (representable_zero T s) as Hz.
  assert (Hnz : is_nan T (zero T s) = false) by (destruct T, s; reflexivity).
  destruct (is_nan T x) eqn:Hn.
  { unfold almost_equal. rewrite Hn, orb_true_r. simpl.
    apply is_nan_float_data in Hn. rewrite Hn. split; reflexivity. }
  assert (Hnn : float_data T x <> S754_nan).
  { intros E. apply is_nan_float_data in E. congruence. }
  assert (Hc : float_close T (float_data T x) (float_data T (zero T s)) =
               SFleb (SFabs (float_data T x)) (maxDiff T)).
  { rewrite float_close_abs, float_data_zero, SFabs_SFsub_zero_r
      by assumption. reflexivity. }
  destruct (SFleb (SFabs (float_data T x)) (maxDiff T)) eqn:Hle.
  - unfold almost_equal.
    rewrite (float_close_sym T (float_data T (zero T s))), Hc, Hn, Hnz.
    split; reflexivity.
  - split.
    + destruct (almost_equal T x (zero T s)) eqn:E; [|reflexivity].
      apply (almost_equal_iff T x _ Hx Hz) in E.
      destruct E as (_ & _ & [E | [Hs Hd]]); [congruence|].
      unfold maxUlpsDiff in Hd.
      pose proof (above_zero T s (x - zero T s) ltac:(lia)) as Ha.
      replace (zero T s + (x - zero T s)) with x in Ha by lia. congruence.
    + destruct (almost_equal T (zero T s) x) eqn:E; [|reflexivity].
      apply (almost_equal_iff T _ x Hz Hx) in E.
      destruct E as (_ & _ & [E | [Hs Hd]]).
      * rewrite float_close_sym in E. congruence.
      * unfold maxUlpsDiff in Hd.
        destruct (Z.eq_dec x (zero T s)) as [-> | Hne].
        -- pose proof (above_zero T s 0 ltac:(lia)) as Ha.
           rewrite Z.add_0_r in Ha. congruence.
        -- exfalso. apply (below_zero T s (zero T s - x)); try lia.
           ++ replace (zero T s - (zero T s - x)) with x by lia. exact Hx.
           ++ replace (zero T s - (zero T s - x)) with x by lia. congruence.
Qed.

Lemma almost_equal_zero_iff_witness :
  almost_equal Float (epsilon_f + 1) (zero Float true) =
    SFleb (SFabs (float_data Float (epsilon_f + 1))) (maxDiff Float) /\
  almost_equal Float (zero Float true) (epsilon_f + 1) =
    SFleb (SFabs (float_data Float (epsilon_f + 1))) (maxDiff Float).
Proof.
  apply (almost_equal_zero_iff Float true (epsilon_f + 1)).
  unfold representable. split; (discriminate || reflexivity).
Defined.

(** ** The equality operators *)

(** X17.  The free [operator==], which swaps its operands, agrees with the
    member [operator==] on the same operands exactly when an operand is NaN,
    the absolute check holds, the sign bits differ, the patterns are equal,
    or the patterns are more than 4 apart. *)
Theorem operators_agree T a b :
  representable T a -> representable T b ->
  (eq_free T a b = eq_member T a b <->
   is_nan T a = true \/ is_nan T b = true \/
   float_close T (float_data T a) (float_data T b) = true \/
   sign_bit T a <> sign_bit T b \/ a = b \/ maxUlpsDiff < Z.abs (a - b)).
Proof.
  intros Ha Hb. unfold eq_free, eq_member.
  pose proof (almost_equal_iff T a b Ha Hb) as Hab.
  pose proof (almost_equal_iff T b a Hb Ha) as Hba.
  rewrite (float_close_sym T (float_data T b) (float_data T a)) in Hba.
  unfold maxUlpsDiff in *.
  destruct (is_nan T a), (is_nan T b),
    (float_close T (float_data T a) (float_data T b)),
    (Z.eq_dec (sign_bit T a) (sign_bit T b)) as [Hs | Hs],
    (almost_equal T a b), (almost_equal T b a);
    split; intros H; auto; try (exfalso; intuition (congruence || lia));
    intuition (congruence || lia).
Qed.

Lemma operators_agree_witness :
  eq_free Float one_f (one_f + 4) = eq_member Float one_f (one_f + 4) <->
  is_nan Float one_f = true \/ is_nan Float (one_f + 4) = true \/
  float_close Float (float_data Float one_f) (float_data Float (one_f + 4))
    = true \/
  sign_bit Float one_f <> sign_bit Float (one_f + 4) \/ one_f = one_f + 4 \/
  maxUlpsDiff < Z.abs (one_f - (one_f + 4)).
Proof.
  apply (operators_agree Float one_f (one_f + 4));
    unfold representable; split; (discriminate || reflexivity).
Defined.
